(** * Steppe Pulse conservation bot: a shallow embedding of [telegram.py]

    The bot answers free-text messages by keyword dispatch
    ([ConversationHandler.process_message]), answers the three inline
    buttons ([callback_query]) and sends one update per day
    ([send_daily_conservation_update]).

    Conventions of the embedding.
    - A Python [str] is a [string] holding its UTF-8 encoding.  Every
      keyword is ASCII, and UTF-8 is self-synchronising, so containment of
      a keyword in the byte string is containment in the code-point string.
    - A Python [dict] is a [gmap]; subscripting a missing key raises, which
      is [None] here.
    - The calls made on the [telebot] client are recorded, in order, in the
      [outbox] of the world; handlers run in a state-and-failure monad over
      that world. *)

From stdpp Require Import base option list strings gmap.

Local Open Scope Z_scope.

(** ** Strings *)

Module Str.

(** The line feed, written [\n] in the Python literals. *)
Definition nl : string := String (Ascii.ascii_of_nat 10) "".

(** [s.startswith(p)]. *)
Fixpoint startswith (p s : string) : bool :=
  match p, s with
  | EmptyString, _ => true
  | String _ _, EmptyString => false
  | String a p', String b s' => if decide (a = b) then startswith p' s' else false
  end.

(** [k in s] on strings: [k] occurs in [s] as a contiguous run. *)
Fixpoint contains (k s : string) : bool :=
  startswith k s ||
  match s with
  | EmptyString => false
  | String _ s' => contains k s'
  end.

(** What [contains] decides. *)
Definition occurs_in (k s : string) : Prop :=
  ∃ pre post, s = pre +:+ k +:+ post.

(** ["".join(pieces)]. *)
Definition cat (pieces : list string) : string :=
  foldr String.append "" pieces.

(** [s.split("\n")]: the pieces between line feeds; [n + 1] pieces for
    [n] line feeds. *)
Fixpoint lines_go (cur : string) (s : string) : list string :=
  match s with
  | EmptyString => [String.rev cur]
  | String c s' =>
      if decide (c = Ascii.ascii_of_nat 10)
      then String.rev cur :: lines_go "" s'
      else lines_go (String c cur) s'
  end.

Definition lines (s : string) : list string := lines_go "" s.

(** The action of [str.lower] on one ASCII code unit: [A]..[Z] move to
    [a]..[z]. *)
Definition lower_byte (c : Ascii.ascii) : Ascii.ascii :=
  let n := Ascii.N_of_ascii c in
  if ((65 <=? n) && (n <=? 90))%N then Ascii.ascii_of_N (n + 32) else c.

(** [str.lower] as it acts on ASCII text; bytes of longer UTF-8 sequences
    are kept.  Used for concrete scenarios only: the dispatch itself is
    stated for whatever [str.lower] returns. *)
Fixpoint lower_ascii (s : string) : string :=
  match s with
  | EmptyString => EmptyString
  | String c s' => String (lower_byte c) (lower_ascii s')
  end.

End Str.

(** [any(keyword in text for keyword in keywords)]. *)
Definition any_in (keywords : list string) (text : string) : bool :=
  existsb (λ keyword, Str.contains keyword text) keywords.

(** Some keyword of the list occurs in the text. *)
Definition mentions (keywords : list string) (text : string) : Prop :=
  ∃ keyword, keyword ∈ keywords ∧ Str.occurs_in keyword text.

(** ** Python containers *)

(** The dict literals of the content tables. *)
Abbreviation dict := (gmap string string).

(** [l[i]] on a list: a negative index counts from the end, an index out of
    range raises. *)
Definition py_index {A} (l : list A) (i : Z) : option A :=
  let n := Z.of_nat (length l) in
  if decide (0 ≤ i) then l !! Z.to_nat i
  else if decide (- n ≤ i) then l !! Z.to_nat (n + i)
  else None.

(** [a % b] on ints: the result has the sign of [b]; [b = 0] raises. *)
Definition py_mod (a b : Z) : option Z :=
  if decide (b = 0) then None else Some (a `mod` b).

(** ** Content tables *)

Definition TEAM_MEMBERS : list dict :=
  [ {[ "name" := "Henry Kimani";
       "role" := "CEO & co-founder";
       "description" := "Software Engineer." ]};
    {[ "name" := "Bridgit Nyambeka";
       "role" := "Project Manager & co-founder";
       "description" := "Software Engineer & Graphic Designer" ]};
    {[ "name" := "Mirriam Njeri";
       "role" := "Marketing, Community lead & co-founder";
       "description" := "Journalist & software developer." ]};
    {[ "name" := "Brandistone Nyabonyi";
       "role" := "CTO & co-founder";
       "description" := "Software Engineer" ]} ].

Definition ECOSYSTEMS : list dict :=
  [ {[ "title" := "Marine Conservation";
       "description" := "Protecting ocean biodiversity through blockchain-powered initiatives" ]};
    {[ "title" := "Forest Preservation";
       "description" := "Securing critical forest habitats and supporting reforestation efforts" ]};
    {[ "title" := "Alpine Ecosystem";
       "description" := "Safeguarding high-altitude wildlife and fragile mountain environments" ]};
    {[ "title" := "Migratory Pathways";
       "description" := "Tracking and protecting critical migration routes for endangered species" ]} ].

Definition FAQS : list dict :=
  [ {[ "question" := "What is our primary mission?";
       "answer" := "We aim to leverage blockchain technology to support wildlife conservation efforts, creating unique digital assets that directly contribute to ecosystem preservation." ]};
    {[ "question" := "How do NFTs support conservation?";
       "answer" := "Each NFT represents a direct contribution to wildlife protection, with proceeds funding conservation projects, research, and habitat preservation." ]};
    {[ "question" := "Can anyone join the community?";
       "answer" := "Absolutely! We welcome anyone passionate about wildlife conservation and innovative blockchain solutions to join our global community." ]};
    {[ "question" := "How are funds used?";
       "answer" := "Funds are carefully allocated to vetted conservation projects, scientific research, and community-driven initiatives that protect endangered ecosystems." ]} ].

(** ** Reply texts *)

(** The triple-quoted literal returned by the first branch of
    [process_message]. *)
Definition MISSION_REPLY : string :=
  "🌍 Steppe Pulse Mission:" +:+ Str.nl +:+
  "We're pioneering a revolutionary intersection of blockchain technology and wildlife conservation. " +:+ Str.nl +:+
  "Our mission is to transform digital assets into powerful conservation tools, connecting passionate global citizens with critical environmental challenges.".

(** The triple-quoted literal returned when no branch is taken. *)
Definition FALLBACK_REPLY : string :=
  "🤖 I'm an intelligent bot for Steppe Pulse Wildlife Conservation. " +:+ Str.nl +:+
  "I can help you with information about our mission, team, ecosystems, and NFT projects. " +:+ Str.nl +:+
  "Try asking about our mission, team, ecosystems, or frequently asked questions!".

Definition TEAM_HEADER : string :=
  "🤝 Our Founding Team:" +:+ Str.nl +:+ Str.nl.

Definition ECOSYSTEM_HEADER : string :=
  "🌱 Our Conservation Ecosystems:" +:+ Str.nl +:+ Str.nl.

Definition FAQ_HEADER : string :=
  "❓ Frequently Asked Questions:" +:+ Str.nl +:+ Str.nl.

(** [for entry in table: acc += body(entry)], then the value of [acc]. *)
Fixpoint accumulate (body : dict → option string) (acc : string)
    (table : list dict) : option string :=
  match table with
  | [] => Some acc
  | entry :: rest => piece ← body entry; accumulate body (acc +:+ piece) rest
  end.

(** [f"*{member['name']}* - {member['role']}\n{member['description']}\n\n"] *)
Definition team_entry (member : dict) : option string :=
  name ← member !! "name";
  role ← member !! "role";
  description ← member !! "description";
  Some ("*" +:+ name +:+ "* - " +:+ role +:+ Str.nl +:+ description +:+ Str.nl +:+ Str.nl).

(** [f"*{ecosystem['title']}*\n{ecosystem['description']}\n\n"] *)
Definition ecosystem_entry (ecosystem : dict) : option string :=
  title ← ecosystem !! "title";
  description ← ecosystem !! "description";
  Some ("*" +:+ title +:+ "*" +:+ Str.nl +:+ description +:+ Str.nl +:+ Str.nl).

(** [f"*Q: {faq['question']}*\nA: {faq['answer']}\n\n"] *)
Definition faq_entry (faq : dict) : option string :=
  question ← faq !! "question";
  answer ← faq !! "answer";
  Some ("*Q: " +:+ question +:+ "*" +:+ Str.nl +:+ "A: " +:+ answer +:+ Str.nl +:+ Str.nl).

(** The three loops; the team and ecosystem loops are written out twice in
    the source, in [process_message] and in [callback_query], with the same
    statements. *)
Definition team_info : option string :=
  accumulate team_entry TEAM_HEADER TEAM_MEMBERS.

Definition ecosystem_info : option string :=
  accumulate ecosystem_entry ECOSYSTEM_HEADER ECOSYSTEMS.

Definition faq_info : option string :=
  accumulate faq_entry FAQ_HEADER FAQS.

(** The list [updates] of [send_daily_conservation_update]. *)
Definition updates : list string :=
  [ "🐘 Did you know? African elephants are keystone species crucial for maintaining ecosystem balance.";
    "🌍 Every NFT purchased helps protect critical wildlife habitats around the globe!";
    "🌱 Reforestation update: Our latest project has planted 1000 trees in critical forest zones.";
    "🐝 Biodiversity matters: Pollinators like bees are essential for global food security." ].

(** ** The client and the events it delivers *)

(** [message.chat.id] and [message.text] of an incoming message. *)
Record Message := mkMessage {
  message_chat_id : Z;
  message_text : string
}.

(** [call.id], [call.data] and [call.message] of a button press. *)
Record CallbackQuery := mkCallbackQuery {
  call_id : string;
  call_data : string;
  call_message : Message
}.

Record InlineKeyboardButton := mkButton {
  button_text : string;
  callback_data : string
}.

(** The first argument of [bot.send_message]: a chat id taken from an
    update, or the value of the [ADMIN_CHAT_ID] environment variable. *)
Inductive chat_ref :=
  | chat_of_update (id : Z)
  | chat_of_env (value : option string).

(** The methods of the [telebot] client the handlers call, with their
    arguments. *)
Inductive bot_call :=
  | answer_callback_query (callback_query_id : string) (text : string)
  | send_message (chat : chat_ref) (text : string) (parse_mode : option string)
  | reply_to (message : Message) (text : string) (parse_mode : option string)
      (reply_markup : option (list (list InlineKeyboardButton))).

(** The topic a free-text message is answered under. *)
Inductive Topic := Mission | Team | Ecosystems | FAQ | Unknown.

(** The keyword lists of [process_message] in the order its [if]
    statements test them, each with the topic of its branch. *)
Definition dispatch_order : list (Topic * list string) :=
  [ (Mission, ["mission"; "goal"; "purpose"]);
    (Team, ["team"; "founder"; "members"]);
    (Ecosystems, ["ecosystem"; "conservation"; "project"]);
    (FAQ, ["help"; "question"; "faq"]) ].

(** ** The world the handlers run in *)

Section Bot.

(** The values [conversation_state] would hold: nothing in the source
    says what they are. *)
Context {V : Type}.

(** [str.lower] of the Python runtime (full Unicode case mapping). *)
Variable lower : string → string.

(** [os.getenv('ADMIN_CHAT_ID')]. *)
Variable ADMIN_CHAT_ID : option string.

(** The one [ConversationHandler] of the module with its dict, and the
    calls made on the client so far, oldest first. *)
Record World := mkWorld {
  conversation_state : gmap Z V;
  outbox : list bot_call
}.

(** [conversation_handler = ConversationHandler()] at import time. *)
Definition initial_world : World :=
  {| conversation_state := ∅; outbox := [] |}.

(** A handler: from a world to its value, [None] when it raised, and the
    world it leaves. *)
Definition M (A : Type) : Type := World → option A * World.

#[global] Instance M_ret : MRet M := λ A a w, (Some a, w).

#[global] Instance M_bind : MBind M := λ A B f m w,
  match m w with
  | (Some a, w') => f a w'
  | (None, w') => (None, w')
  end.

(** A pure computation that may raise. *)
Definition from_option {A} (o : option A) : M A := λ w, (o, w).

(** The world once further calls have been made on the client. *)
Definition with_calls (w : World) (calls : list bot_call) : World :=
  {| conversation_state := conversation_state w;
     outbox := outbox w ++ calls |}.

(** One call on the client. *)
Definition call (c : bot_call) : M () := λ w, (Some (), with_calls w [c]).

(** ** [ConversationHandler.process_message] *)

Definition process_message (chat_id : Z) (message : string) : M string :=
  let message_lower := lower message in
  if any_in ["mission"; "goal"; "purpose"] message_lower then
    mret MISSION_REPLY
  else if any_in ["team"; "founder"; "members"] message_lower then
    from_option team_info
  else if any_in ["ecosystem"; "conservation"; "project"] message_lower then
    from_option ecosystem_info
  else if any_in ["help"; "question"; "faq"] message_lower then
    from_option faq_info
  else
    mret FALLBACK_REPLY.

(** The branch [process_message] takes, as a topic. *)
Definition classify (message : string) : Topic :=
  let message_lower := lower message in
  if any_in ["mission"; "goal"; "purpose"] message_lower then Mission
  else if any_in ["team"; "founder"; "members"] message_lower then Team
  else if any_in ["ecosystem"; "conservation"; "project"] message_lower then Ecosystems
  else if any_in ["help"; "question"; "faq"] message_lower then FAQ
  else Unknown.

(** What each branch returns. *)
Definition format (topic : Topic) : option string :=
  match topic with
  | Mission => Some MISSION_REPLY
  | Team => team_info
  | Ecosystems => ecosystem_info
  | FAQ => faq_info
  | Unknown => Some FALLBACK_REPLY
  end.

(** ** [send_daily_conservation_update]

    [now] is [int(time.time())], the clock in whole seconds. *)
Definition send_daily_conservation_update (now : Z) : M () :=
  i ← from_option (py_mod now (Z.of_nat (length updates)));
  update ← from_option (py_index updates i);
  call (send_message (chat_of_env ADMIN_CHAT_ID) update None).

(** ** The handlers registered on the client *)

Definition welcome_text : string :=
  "🌍 Welcome to Steppe Pulse Conservation Bot! " +:+ Str.nl +:+
  Str.nl +:+
  "I'm your intelligent assistant for wildlife conservation and blockchain innovation. " +:+ Str.nl +:+
  "What would you like to know about our mission, team, or conservation efforts?" +:+ Str.nl +:+
  Str.nl +:+
  "Quick Commands:" +:+ Str.nl +:+
  "/mission - Learn about our vision" +:+ Str.nl +:+
  "/team - Meet our founders" +:+ Str.nl +:+
  "/ecosystems - Explore our conservation focus areas" +:+ Str.nl +:+
  "/faq - Frequently Asked Questions".

Definition send_welcome (message : Message) : M () :=
  let mission_btn := mkButton "Our Mission" "mission" in
  let team_btn := mkButton "Our Team" "team" in
  let ecosystems_btn := mkButton "Ecosystems" "ecosystems" in
  let markup := [[mission_btn; team_btn; ecosystems_btn]] in
  call (reply_to message welcome_text None (Some markup)).

Definition handle_message (message : Message) : M () :=
  response ← process_message (message_chat_id message) (message_text message);
  call (reply_to message response (Some "Markdown") None).

Definition callback_query (c : CallbackQuery) : M () :=
  let chat := chat_of_update (message_chat_id (call_message c)) in
  if decide (call_data c = "mission") then
    call (answer_callback_query (call_id c) "Our Mission");;
    faq ← from_option (py_index FAQS 0);
    answer ← from_option (faq !! "answer");
    call (send_message chat answer (Some "Markdown"))
  else if decide (call_data c = "team") then
    call (answer_callback_query (call_id c) "Our Team");;
    team_info ← from_option team_info;
    call (send_message chat team_info (Some "Markdown"))
  else if decide (call_data c = "ecosystems") then
    call (answer_callback_query (call_id c) "Conservation Ecosystems");;
    ecosystem_info ← from_option ecosystem_info;
    call (send_message chat ecosystem_info (Some "Markdown"))
  else
    mret ().

(** A handler neither writes [conversation_state] nor lets its value or
    its calls on the client depend on it. *)
Definition ignores_conversation_state {A} (h : M A) : Prop :=
  ∀ w,
    conversation_state (h w).2 = conversation_state w ∧
    ∀ state,
      let w' := {| conversation_state := state; outbox := outbox w |} in
      (h w').1 = (h w).1 ∧ outbox (h w').2 = outbox (h w).2.

End Bot.

(** ** Measures and runs used in the statements *)


(** [s.count(c)] for one character [c]. *)
Fixpoint count_char (c : Ascii.ascii) (s : string) : nat :=
  match s with
  | EmptyString => 0
  | String b s' => (if decide (b = c) then 1 else 0) + count_char c s'
  end.

(** The [text] argument of a call on the client. *)
Definition call_text (c : bot_call) : string :=
  match c with
  | answer_callback_query _ text => text
  | send_message _ text _ => text
  | reply_to _ text _ _ => text
  end.

Section Run.

Context {V : Type}.
Variable lower : string → string.
Variable ADMIN_CHAT_ID : option string.

(** One invocation of a function of the module from outside: the client
    library calls a registered handler on an update, the scheduler calls
    the daily update at a clock reading.  Which handler the library picks
    for which update is decided in the library. *)
Inductive invocation :=
  | on_start (message : Message)
  | on_text (message : Message)
  | on_callback (c : CallbackQuery)
  | on_schedule (now : Z).

Definition invoke (i : invocation) : M (V:=V) () :=
  match i with
  | on_start message => send_welcome message
  | on_text message => handle_message lower message
  | on_callback c => callback_query c
  | on_schedule now => send_daily_conservation_update ADMIN_CHAT_ID now
  end.

(** The world after a sequence of invocations, one after the other; an
    invocation that raised leaves the world it had reached. *)
Fixpoint run (trace : list invocation) (w : World (V:=V)) : World (V:=V) :=
  match trace with
  | [] => w
  | i :: rest => run rest (invoke i w).2
  end.

End Run.

(** * Properties *)

(** ** Containment *)

Module StrFacts.
Import Str.

Lemma str_app_cons a (s t : string) : String a s +:+ t = String a (s +:+ t).
Proof. reflexivity. Qed.

Lemma str_app_nil_r (s : string) : s +:+ "" = s.
Proof. induction s as [|a s IH]; [done|]. by rewrite str_app_cons, IH. Qed.

Lemma str_app_assoc (s t u : string) : s +:+ t +:+ u = (s +:+ t) +:+ u.
Proof. induction s as [|a s IH]; [done|]. by rewrite !str_app_cons, IH. Qed.

Lemma startswith_spec p s : startswith p s = true ↔ ∃ post, s = p +:+ post.
Proof.
  revert s. induction p as [|a p IH]; intros s.
  - split; [intros _; by exists s | done].
  - destruct s as [|b s]; simpl.
    + split; [done | intros [post ?]; discriminate].
    + case_decide as Hab.
      * subst b. rewrite IH. split; intros [post Hpost]; exists post.
        -- by rewrite str_app_cons, Hpost.
        -- rewrite str_app_cons in Hpost. by injection Hpost.
      * split; [done | intros [post Hpost]].
        rewrite str_app_cons in Hpost. injection Hpost as -> _. done.
Qed.

Lemma contains_spec k s : contains k s = true ↔ occurs_in k s.
Proof.
  unfold occurs_in. induction s as [|c s IH].
  - simpl. rewrite orb_false_r, startswith_spec. split.
    + intros [post Hpost]. by exists "", post.
    + intros [[|a pre] [post Hpost]]; [by exists post | discriminate].
  - change (contains k (String c s))
      with (startswith k (String c s) || contains k s).
    rewrite orb_true_iff, startswith_spec, IH. split.
    + intros [[post Hpost] | (pre & post & Hpost)].
      * by exists "", post.
      * exists (String c pre), post. by rewrite str_app_cons, Hpost.
    + intros ([|a pre] & post & Hpost).
      * left. by exists post.
      * right. rewrite str_app_cons in Hpost. injection Hpost as _ ->.
        by exists pre, post.
Qed.

Lemma occurs_in_app k pre post : occurs_in k (pre +:+ k +:+ post).
Proof. by exists pre, post. Qed.

Lemma occurs_in_prepend k pre s : occurs_in k s → occurs_in k (pre +:+ s).
Proof.
  intros (pre' & post & ->). exists (pre +:+ pre'), post.
  by rewrite !str_app_assoc.
Qed.

End StrFacts.

Lemma any_in_spec keywords text :
  any_in keywords text = true ↔ mentions keywords text.
Proof.
  unfold any_in, mentions. rewrite existsb_exists.
  split; intros (keyword & Hin & Hk); exists keyword.
  - by rewrite list_elem_of_In, <- StrFacts.contains_spec.
  - by rewrite <- list_elem_of_In, StrFacts.contains_spec.
Qed.

Lemma any_in_false keywords text :
  any_in keywords text = false ↔ ¬ mentions keywords text.
Proof. rewrite <- any_in_spec. by destruct (any_in keywords text). Qed.

(** ** Keyword dispatch *)

Section Dispatch.

Context {V : Type}.
Variable lower : string → string.

Implicit Types (w : World (V:=V)) (message : string) (chat_id : Z).

(** [process_message] returns what [format] gives for the branch
    [classify] names, and leaves the world alone. *)
Lemma process_message_format chat_id message w :
  process_message lower chat_id message w
  = (format (classify lower message), w).
Proof.
  unfold process_message, classify, format.
  repeat (case_match; [reflexivity|]). reflexivity.
Qed.

Lemma classify_unfold message :
  classify lower message =
    if any_in ["mission"; "goal"; "purpose"] (lower message) then Mission
    else if any_in ["team"; "founder"; "members"] (lower message) then Team
    else if any_in ["ecosystem"; "conservation"; "project"] (lower message)
    then Ecosystems
    else if any_in ["help"; "question"; "faq"] (lower message) then FAQ
    else Unknown.
Proof. reflexivity. Qed.

(** C1: a message whose lower-casing contains a Mission keyword is
    classified Mission and answered with the mission reply, whatever
    other keywords it contains; and in general, splitting the dispatch
    order at any entry, when no earlier keyword list matches and this
    entry's list does, the message gets this entry's topic and reply. *)
Theorem first_matching_set_wins chat_id message w :
  (mentions ["mission"; "goal"; "purpose"] (lower message) →
     classify lower message = Mission ∧
     process_message lower chat_id message w = (Some MISSION_REPLY, w)) ∧
  (∀ earlier topic keywords later,
     dispatch_order = earlier ++ (topic, keywords) :: later →
     Forall (λ entry, ¬ mentions entry.2 (lower message)) earlier →
     mentions keywords (lower message) →
     classify lower message = topic ∧
     process_message lower chat_id message w = (format topic, w)).
Proof.
  split.
  - intros Hm%any_in_spec.
    rewrite process_message_format, classify_unfold, Hm. done.
  - intros earlier topic keywords later Hsplit Hearlier Hhit%any_in_spec.
    rewrite process_message_format, classify_unfold.
    unfold dispatch_order in Hsplit.
    repeat match goal with
      | Hs : _ = ?e ++ _ :: _, Hf : Forall _ ?e |- _ =>
          let Hmiss := fresh "Hmiss" in
          destruct e as [|[] ?]; cbn [app] in Hs;
          [ simplify_eq; by rewrite Hhit
          | apply Forall_cons in Hf as [Hmiss%any_in_false Hf];
            cbn [snd] in Hmiss; simplify_eq; rewrite Hmiss ]
      end.
Qed.

(** C4: a message whose lower-casing contains none of the twelve keywords
    is classified Unknown and answered with the fallback text itself. *)
Theorem no_keyword_falls_back chat_id message w :
  ¬ mentions ["mission"; "goal"; "purpose"; "team"; "founder"; "members";
              "ecosystem"; "conservation"; "project";
              "help"; "question"; "faq"] (lower message) →
  classify lower message = Unknown ∧
  process_message lower chat_id message w = (Some FALLBACK_REPLY, w).
Proof.
  intros Hnone.
  assert (∀ keywords,
            keywords ⊆ ["mission"; "goal"; "purpose"; "team"; "founder";
                        "members"; "ecosystem"; "conservation"; "project";
                        "help"; "question"; "faq"] →
            any_in keywords (lower message) = false) as Hmiss.
  { intros keywords Hsub. apply any_in_false.
    intros (keyword & Hin & Hocc). apply Hnone. exists keyword. auto. }
  rewrite process_message_format, classify_unfold.
  rewrite !Hmiss; [done | intros keyword; rewrite !elem_of_cons; tauto ..].
Qed.

(** C9: [process_message] returns for every chat and every text, and what
    it returns is a reply that is not the empty string. *)
Theorem process_message_total chat_id message w :
  ∃ reply,
    process_message lower chat_id message w = (Some reply, w) ∧ reply ≠ "".
Proof.
  rewrite process_message_format.
  destruct (classify lower message);
    (eexists; split; [vm_compute; reflexivity | discriminate]).
Qed.

End Dispatch.

(** ** Substring matching *)

Section Substring.

Context {V : Type}.
Variable lower : string → string.

(** C7: matching is containment, not word equality.  The text
    [projectile] (which lower-casing leaves as it is) has no Mission and
    no Team keyword and is not the word [project], yet [project] occurs
    inside it, and the message is answered under Ecosystems. *)
Theorem projectile_matches_project chat_id (w : World (V:=V)) :
  lower "projectile" = "projectile" →
  ¬ mentions ["mission"; "goal"; "purpose"] (lower "projectile") ∧
  ¬ mentions ["team"; "founder"; "members"] (lower "projectile") ∧
  ¬ mentions ["ecosystem"; "conservation"] (lower "projectile") ∧
  ("project" ∉ String.words "projectile") ∧
  Str.occurs_in "project" (lower "projectile") ∧
  classify lower "projectile" = Ecosystems ∧
  process_message lower chat_id "projectile" w = (ecosystem_info, w).
Proof.
  intros Hlow.
  rewrite process_message_format, classify_unfold, Hlow.
  repeat split.
  - by apply any_in_false.
  - by apply any_in_false.
  - by apply any_in_false.
  - change (String.words "projectile") with ["projectile"].
    by intros ?%list_elem_of_singleton.
  - by exists "", "ile".
Qed.

End Substring.

(** ** Layout of the team reply *)

Section Layout.
Import Str StrFacts.

(** The loop appends the pieces in table order. *)
Lemma accumulate_pieces (body : dict → option string) table pieces :
  Forall2 (λ entry piece, body entry = Some piece) table pieces →
  ∀ acc, accumulate body acc table = Some (acc +:+ cat pieces).
Proof.
  induction 1 as [|entry piece table pieces Hpiece _ IH]; intros acc.
  - simpl. by rewrite str_app_nil_r.
  - simpl. rewrite Hpiece. simpl. rewrite IH.
    unfold cat. simpl. by rewrite str_app_assoc.
Qed.

(** It raises only where the body does. *)
Lemma accumulate_is_Some (body : dict → option string) table :
  Forall (λ entry, is_Some (body entry)) table →
  ∃ pieces, Forall2 (λ entry piece, body entry = Some piece) table pieces.
Proof.
  induction 1 as [|entry table [piece Hpiece] _ [pieces IH]].
  - by exists [].
  - exists (piece :: pieces). by constructor.
Qed.

(** A team block carries the three fields of its entry. *)
Lemma team_entry_fields member block :
  team_entry member = Some block →
  ∃ name role description,
    member !! "name" = Some name ∧
    member !! "role" = Some role ∧
    member !! "description" = Some description ∧
    block = "*" +:+ name +:+ "* - " +:+ role +:+ nl +:+ description
            +:+ nl +:+ nl.
Proof.
  unfold team_entry. intros Hblock.
  destruct (member !! "name") as [name|]; [|done].
  destruct (member !! "role") as [role|]; [|done].
  destruct (member !! "description") as [description|]; [|done].
  simpl in Hblock. exists name, role, description.
  by injection Hblock as <-.
Qed.

(** C5: the team reply is the header followed by one block per entry of
    the team table, in table order (four blocks, Henry Kimani's first);
    each block is the one built from its entry and contains the entry's
    name, role and description. *)
Theorem team_reply_one_block_per_member :
  ∃ blocks,
    format Team = Some (TEAM_HEADER +:+ cat blocks) ∧
    Forall2 (λ member block,
               team_entry member = Some block ∧
               ∃ name role description,
                 member !! "name" = Some name ∧
                 member !! "role" = Some role ∧
                 member !! "description" = Some description ∧
                 occurs_in name block ∧
                 occurs_in role block ∧
                 occurs_in description block)
            TEAM_MEMBERS blocks ∧
    length blocks = 4%nat ∧
    ∃ first, head TEAM_MEMBERS = Some first ∧
             first !! "name" = Some "Henry Kimani".
Proof.
  destruct (accumulate_is_Some team_entry TEAM_MEMBERS) as [blocks Hblocks].
  { repeat (constructor; [vm_compute; by eexists|]). constructor. }
  exists blocks. split; [|split; [|split]].
  - by apply accumulate_pieces.
  - eapply Forall2_impl; [exact Hblocks|].
    intros member block Hblock. split; [done|].
    destruct (team_entry_fields _ _ Hblock)
      as (name & role & description & Hn & Hr & Hd & ->).
    exists name, role, description. repeat split; try done.
    + apply occurs_in_app.
    + do 2 apply occurs_in_prepend. apply (occurs_in_app _ "* - ").
    + do 4 apply occurs_in_prepend. apply (occurs_in_app _ nl).
  - apply Forall2_length in Hblocks. by rewrite <- Hblocks.
  - eexists. split; [reflexivity | by vm_compute].
Qed.

(** C6, as the code has it: the lines of the team reply are the header
    line and an empty line, then for each entry of the team table, in
    table order, the line [*name* - role], the description line and an
    empty line; the reply ends with a line feed. *)
Theorem team_reply_lines :
  ∃ reply,
    format Team = Some reply ∧
    lines reply =
      ["🤝 Our Founding Team:"; ""] ++
      flat_map (λ member : dict,
                  [ "*" +:+ member !!! "name" +:+ "* - " +:+ member !!! "role";
                    member !!! "description";
                    "" ])
               TEAM_MEMBERS ++
      [""].
Proof. eexists. split; [by vm_compute | by vm_compute]. Qed.

(** C6, as the specification words it, fails: neither the line
    [name — role] (with or without the long dash) nor the block it would
    start occurs in the reply for the first team member. *)
Lemma team_reply_has_no_dash_line :
  ∃ reply,
    format Team = Some reply ∧
    ("Henry Kimani — CEO & co-founder" ∉ lines reply) ∧
    ("Henry Kimani - CEO & co-founder" ∉ lines reply) ∧
    ¬ occurs_in ("Henry Kimani — CEO & co-founder" +:+ nl +:+ "Software Engineer.") reply ∧
    ¬ occurs_in "Henry Kimani — CEO & co-founder" reply ∧
    ¬ occurs_in "Henry Kimani - CEO & co-founder" reply.
Proof.
  eexists. split; [by vm_compute|].
  repeat split;
    try (rewrite <- contains_spec; by vm_compute);
    match goal with |- ?P => apply (bool_decide_unpack P) end; by vm_compute.
Qed.

End Layout.

(** ** Button presses and the daily update *)

Section Handlers.

Context {V : Type}.
Variable ADMIN_CHAT_ID : option string.

Implicit Types (w : World (V:=V)) (c : CallbackQuery).

Lemma with_calls_app w calls calls' :
  with_calls (with_calls w calls) calls' = with_calls w (calls ++ calls').
Proof. unfold with_calls. simpl. by rewrite (assoc_L (++)). Qed.

Lemma with_calls_two w call1 call2 :
  with_calls (with_calls w [call1]) [call2] = with_calls w [call1; call2].
Proof. apply with_calls_app. Qed.

Lemma py_mod_nonzero a b : b ≠ 0 → py_mod a b = Some (a `mod` b).
Proof. intros Hb. unfold py_mod. by case_decide. Qed.

(** C2: a press on the [mission] button is acknowledged and then answered
    with the answer of the first FAQ entry, which is not the mission reply
    that a free-text Mission message gets. *)
Theorem mission_button_sends_first_faq_answer id message w :
  ∃ faq answer,
    FAQS !! 0%nat = Some faq ∧
    faq !! "answer" = Some answer ∧
    callback_query (mkCallbackQuery id "mission" message) w
    = (Some (),
       with_calls w [ answer_callback_query id "Our Mission";
                 send_message (chat_of_update (message_chat_id message))
                   answer (Some "Markdown") ]) ∧
    answer ≠ MISSION_REPLY ∧
    format Mission = Some MISSION_REPLY.
Proof.
  eexists _, _. split; [reflexivity|]. split; [by vm_compute|].
  split; [|split; [by vm_compute | reflexivity]].
  by rewrite <- with_calls_two.
Qed.

(** C10: a press whose data is none of [mission], [team], [ecosystems]
    makes no call on the client, neither an acknowledgement nor a message,
    and the handler returns normally. *)
Theorem other_callbacks_ignored c w :
  call_data c ∉ ["mission"; "team"; "ecosystems"] →
  callback_query c w = (Some (), w) ∧
  outbox (callback_query c w).2 = outbox w.
Proof.
  intros Hother. rewrite !not_elem_of_cons in Hother.
  destruct Hother as (? & ? & ? & _).
  unfold callback_query. by repeat case_decide.
Qed.

(** C3: fired at clock reading [now], the daily update sends to the
    configured chat the entry of [updates] at index [now mod 4]; when that
    remainder is 2 the text is the reforestation update. *)
Theorem daily_update_by_clock now w :
  ∃ update,
    updates !! Z.to_nat (now `mod` 4) = Some update ∧
    send_daily_conservation_update ADMIN_CHAT_ID now w
    = (Some (),
       with_calls w [send_message (chat_of_env ADMIN_CHAT_ID) update None]) ∧
    (now `mod` 4 = 2 →
     update = "🌱 Reforestation update: Our latest project has planted 1000 trees in critical forest zones.").
Proof.
  unfold send_daily_conservation_update.
  change (Z.of_nat (length updates)) with 4.
  rewrite py_mod_nonzero by done.
  pose proof (Z.mod_pos_bound now 4 eq_refl) as Hr.
  assert (now `mod` 4 = 0 ∨ now `mod` 4 = 1 ∨
          now `mod` 4 = 2 ∨ now `mod` 4 = 3) as Hcase by lia.
  destruct Hcase as [Hc | [Hc | [Hc | Hc]]]; rewrite Hc;
    (eexists; split; [reflexivity|]; split; [reflexivity|]);
    intros; by simplify_eq.
Qed.

End Handlers.

(** ** The conversation state *)

Section Frame.

Context {V : Type}.
Variable lower : string → string.
Variable ADMIN_CHAT_ID : option string.

Abbreviation inert := (ignores_conversation_state (V:=V)).

Lemma inert_ret {A} (a : A) : inert (mret a).
Proof. by intros [state sent]. Qed.

Lemma inert_from_option {A} (o : option A) : inert (from_option o).
Proof. by intros [state sent]. Qed.

Lemma inert_call c : inert (call c).
Proof. by intros [state sent]. Qed.

Lemma inert_bind {A B} (m : M A) (f : A → M B) :
  inert m → (∀ a, inert (f a)) → inert (m ≫= f).
Proof.
  intros Hm Hf w. unfold mbind, M_bind.
  destruct (Hm w) as [Hkeep Hsame]. split.
  - destruct (m w) as [[a|] w1]; [|done].
    destruct (Hf a w1) as [Hkeep1 _]. simpl in *. congruence.
  - intros state. simpl.
    destruct (Hsame state) as [Hval Hout].
    destruct (Hm {| conversation_state := state; outbox := outbox w |})
      as [Hkeep' _].
    destruct (m {| conversation_state := state; outbox := outbox w |})
      as [r' [state' sent']].
    destruct (m w) as [r [state1 sent1]]. simpl in *. subst.
    destruct r as [a|]; [|done].
    apply (Hf a {| conversation_state := conversation_state w;
                   outbox := sent1 |}).
Qed.

Create HintDb inert.

#[local] Hint Resolve inert_ret inert_from_option inert_call inert_bind
  : inert.

Lemma inert_process_message chat_id message :
  inert (process_message lower chat_id message).
Proof.
  unfold process_message. repeat case_match; auto with inert.
Qed.

#[local] Hint Resolve inert_process_message : inert.

(** C8, as the code has it: the map is created empty, and no operation
    writes it or reads it: every handler leaves it as it found it, and
    neither what a handler returns nor the calls it makes on the client
    change with its contents. *)
Theorem conversation_state_inert :
  conversation_state (initial_world (V:=V)) = ∅ ∧
  (∀ chat_id message, inert (process_message lower chat_id message)) ∧
  (∀ message, inert (handle_message lower message)) ∧
  (∀ message, inert (send_welcome message)) ∧
  (∀ c, inert (callback_query c)) ∧
  (∀ now, inert (send_daily_conservation_update ADMIN_CHAT_ID now)).
Proof.
  repeat apply conj; intros.
  - reflexivity.
  - auto with inert.
  - unfold handle_message. auto with inert.
  - unfold send_welcome. auto with inert.
  - unfold callback_query. repeat case_decide; auto 8 with inert.
  - unfold send_daily_conservation_update. auto with inert.
Qed.

End Frame.

(** C8, as the specification words it, fails: processing a message writes
    nothing.  After the first message of chat 42 the map is still the empty
    one it was created as, with no entry for that chat. *)
Lemma processing_writes_nothing :
  let message := mkMessage 42 "What is your mission?" in
  let w := initial_world (V:=()) in
  let w1 := (process_message Str.lower_ascii 42 (message_text message) w).2 in
  let w2 := (handle_message Str.lower_ascii message w).2 in
  conversation_state w1 = conversation_state w ∧
  conversation_state w2 = conversation_state w ∧
  conversation_state w2 !! 42 = None ∧
  outbox w2 = [reply_to message MISSION_REPLY (Some "Markdown") None].
Proof. by vm_compute. Qed.

(** ** Scenarios *)

(** The dispatch on a message that names every topic, and on one that names
    the team only. *)
Lemma first_matching_set_wins_scenario :
  let lower := Str.lower_ascii in
  let w := initial_world (V:=()) in
  let crowded := "Our MISSION, the team, a project - any help?" in
  let team := "Tell me about the team" in
  (mentions ["mission"; "goal"; "purpose"] (lower crowded) ∧
   mentions ["team"; "founder"; "members"] (lower crowded) ∧
   mentions ["ecosystem"; "conservation"; "project"] (lower crowded) ∧
   mentions ["help"; "question"; "faq"] (lower crowded) ∧
   classify lower crowded = Mission ∧
   process_message lower 7 crowded w = (Some MISSION_REPLY, w)) ∧
  (¬ mentions ["mission"; "goal"; "purpose"] (lower team) ∧
   mentions ["team"; "founder"; "members"] (lower team) ∧
   classify lower team = Team ∧
   process_message lower 7 team w = (format Team, w)).
Proof.
  intros lower w crowded team.
  assert (mentions ["mission"; "goal"; "purpose"] (lower crowded)) as Hm.
  { apply any_in_spec. by vm_compute. }
  assert (¬ mentions ["mission"; "goal"; "purpose"] (lower team)) as Hno.
  { apply any_in_false. by vm_compute. }
  assert (mentions ["team"; "founder"; "members"] (lower team)) as Ht.
  { apply any_in_spec. by vm_compute. }
  split.
  - split; [exact Hm|].
    do 3 (split; [apply any_in_spec; by vm_compute|]).
    exact (proj1 (first_matching_set_wins lower 7 crowded w) Hm).
  - split; [exact Hno|]. split; [exact Ht|].
    refine (proj2 (first_matching_set_wins lower 7 team w)
              [(Mission, ["mission"; "goal"; "purpose"])] Team
              ["team"; "founder"; "members"]
              [(Ecosystems, ["ecosystem"; "conservation"; "project"]);
               (FAQ, ["help"; "question"; "faq"])]
              eq_refl _ Ht).
    constructor; [exact Hno | constructor].
Defined.

(** A greeting names no topic. *)
Lemma no_keyword_falls_back_scenario :
  let lower := Str.lower_ascii in
  let w := initial_world (V:=()) in
  ¬ mentions ["mission"; "goal"; "purpose"; "team"; "founder"; "members";
              "ecosystem"; "conservation"; "project";
              "help"; "question"; "faq"] (lower "Hello there!") ∧
  classify lower "Hello there!" = Unknown ∧
  process_message lower 7 "Hello there!" w = (Some FALLBACK_REPLY, w).
Proof.
  intros lower w.
  assert (¬ mentions ["mission"; "goal"; "purpose"; "team"; "founder";
                      "members"; "ecosystem"; "conservation"; "project";
                      "help"; "question"; "faq"] (lower "Hello there!")) as Hno.
  { apply any_in_false. by vm_compute. }
  split; [exact Hno|].
  exact (no_keyword_falls_back lower 7 "Hello there!" w Hno).
Defined.

(** [projectile] under the ASCII case mapping. *)
Lemma projectile_matches_project_scenario :
  let lower := Str.lower_ascii in
  let w := initial_world (V:=()) in
  lower "projectile" = "projectile" ∧
  classify lower "projectile" = Ecosystems ∧
  process_message lower 7 "projectile" w = (ecosystem_info, w).
Proof.
  intros lower w. split; [reflexivity|].
  exact (proj2 (proj2 (proj2 (proj2 (proj2
           (projectile_matches_project lower 7 w eq_refl)))))).
Defined.

(** A press carrying [faq], which no button of the welcome keyboard sends. *)
Lemma other_callbacks_ignored_scenario :
  let c := mkCallbackQuery "4242" "faq" (mkMessage 7 "/start") in
  let w := initial_world (V:=()) in
  (call_data c ∉ ["mission"; "team"; "ecosystems"]) ∧
  callback_query c w = (Some (), w) ∧
  outbox (callback_query c w).2 = outbox w.
Proof.
  intros c w.
  assert (call_data c ∉ ["mission"; "team"; "ecosystems"]) as Hother.
  { rewrite !not_elem_of_cons. repeat split; try discriminate.
    apply not_elem_of_nil. }
  split; [exact Hother|].
  exact (other_callbacks_ignored c w Hother).
Defined.

(** The update fired at 1700000002 seconds, a clock reading with
    remainder 2. *)
Lemma daily_update_by_clock_scenario :
  let w := initial_world (V:=()) in
  1700000002 `mod` 4 = 2 ∧
  send_daily_conservation_update (Some "1001") 1700000002 w
  = (Some (),
     with_calls w
       [send_message (chat_of_env (Some "1001"))
          "🌱 Reforestation update: Our latest project has planted 1000 trees in critical forest zones."
          None]).
Proof.
  intros w. split; [reflexivity|].
  destruct (daily_update_by_clock (Some "1001") 1700000002 w)
    as (update & _ & Hsend & Hrefo).
  rewrite Hsend, (Hrefo eq_refl). reflexivity.
Defined.

(** * Further properties of the module *)

(** ** The dispatch, read backwards *)


(** Every branch returns a text, and no branch the empty one. *)
Lemma format_is_Some topic : ∃ reply, format topic = Some reply ∧ reply ≠ "".
Proof. destruct topic; (eexists; split; [by vm_compute | discriminate]). Qed.

Section DispatchBackwards.

Context {V : Type}.
Variable lower : string → string.

Implicit Types (w : World (V:=V)) (message : string) (chat_id : Z).

(** X1: the topic of a message tells which keyword lists its lower-casing
    matches: Mission exactly when a Mission keyword occurs; Team exactly
    when a Team keyword occurs and no Mission keyword; and so on down to
    Unknown, exactly when no list matches. *)
Theorem classify_characterised message :
  let text := lower message in
  let mission := mentions ["mission"; "goal"; "purpose"] text in
  let team := mentions ["team"; "founder"; "members"] text in
  let ecosystems := mentions ["ecosystem"; "conservation"; "project"] text in
  let faq := mentions ["help"; "question"; "faq"] text in
  (classify lower message = Mission ↔ mission) ∧
  (classify lower message = Team ↔ ¬ mission ∧ team) ∧
  (classify lower message = Ecosystems ↔ ¬ mission ∧ ¬ team ∧ ecosystems) ∧
  (classify lower message = FAQ ↔
     ¬ mission ∧ ¬ team ∧ ¬ ecosystems ∧ faq) ∧
  (classify lower message = Unknown ↔
     ¬ mission ∧ ¬ team ∧ ¬ ecosystems ∧ ¬ faq).
Proof.
  intros text mission team ecosystems faq.
  subst mission team ecosystems faq text.
  rewrite classify_unfold, <- !any_in_spec.
  destruct (any_in ["mission"; "goal"; "purpose"] (lower message));
    destruct (any_in ["team"; "founder"; "members"] (lower message));
    destruct (any_in ["ecosystem"; "conservation"; "project"] (lower message));
    destruct (any_in ["help"; "question"; "faq"] (lower message));
    intuition congruence.
Qed.


(** X3: the five replies differ from one another, so two messages get the
    same reply exactly when they are answered under the same topic. *)
Theorem reply_identifies_topic chat_id message message' w :
  (process_message lower chat_id message w).1
  = (process_message lower chat_id message' w).1
  ↔ classify lower message = classify lower message'.
Proof.
  rewrite !process_message_format. simpl. split; [|by intros ->].
  destruct (classify lower message), (classify lower message');
    intros Hsame; try reflexivity; by vm_compute in Hsame.
Qed.

(** X4: every reply [process_message] can return is at most 4096 bytes
    long, has an even number of asterisks, and has no underscore, backquote
    or opening square bracket. *)
Theorem replies_are_plain_markdown chat_id message w :
  ∃ reply,
    process_message lower chat_id message w = (Some reply, w) ∧
    (String.length reply ≤ 4096)%nat ∧
    Nat.Even (count_char (Ascii.ascii_of_nat 42) reply) ∧
    count_char (Ascii.ascii_of_nat 95) reply = 0%nat ∧
    count_char (Ascii.ascii_of_nat 96) reply = 0%nat ∧
    count_char (Ascii.ascii_of_nat 91) reply = 0%nat.
Proof.
  rewrite process_message_format.
  destruct (classify lower message);
    (eexists; split; [by vm_compute|];
     split; [apply Nat.leb_le; by vm_compute|];
     split; [|by vm_compute]).
  all: first [ exists 0%nat; by vm_compute | exists 4%nat; by vm_compute ].
Qed.

End DispatchBackwards.

(** ** What the handlers send *)

Section Sending.

Context {V : Type}.
Variable lower : string → string.
Variable ADMIN_CHAT_ID : option string.

Implicit Types (w : World (V:=V)) (c : CallbackQuery) (message : Message).

Lemma with_calls_nil w : with_calls w [] = w.
Proof. destruct w as [state sent]. unfold with_calls. simpl. by rewrite app_nil_r. Qed.

Lemma team_info_text : ∃ text, team_info = Some text.
Proof. destruct (format_is_Some Team) as (text & Htext & _). by exists text. Qed.

Lemma ecosystem_info_text : ∃ text, ecosystem_info = Some text.
Proof.
  destruct (format_is_Some Ecosystems) as (text & Htext & _). by exists text.
Qed.

(** The calls of a button press, by the data it carries. *)
Lemma callback_query_calls c w :
  callback_query c w =
    (Some (),
     with_calls w
       (let chat := chat_of_update (message_chat_id (call_message c)) in
        if decide (call_data c = "mission") then
          [ answer_callback_query (call_id c) "Our Mission";
            send_message chat
              (default "" (FAQS !! 0%nat ≫= λ faq, faq !! "answer"))
              (Some "Markdown") ]
        else if decide (call_data c = "team") then
          [ answer_callback_query (call_id c) "Our Team";
            send_message chat (default "" team_info) (Some "Markdown") ]
        else if decide (call_data c = "ecosystems") then
          [ answer_callback_query (call_id c) "Conservation Ecosystems";
            send_message chat (default "" ecosystem_info) (Some "Markdown") ]
        else [])).
Proof.
  unfold callback_query. cbv zeta. repeat case_decide.
  - by rewrite <- with_calls_two.
  - destruct team_info_text as [text Htext].
    rewrite Htext, <- with_calls_two. done.
  - destruct ecosystem_info_text as [text Htext].
    rewrite Htext, <- with_calls_two. done.
  - by rewrite with_calls_nil.
Qed.




(** X8: the team and ecosystems buttons send the text a free-text message
    of that topic is answered with. *)
Theorem listing_buttons_match_free_text topic data label chat_id text id
    message w w' :
  (topic, data, label) ∈ [ (Team, "team", "Our Team");
                           (Ecosystems, "ecosystems",
                            "Conservation Ecosystems") ] →
  classify lower text = topic →
  ∃ reply,
    process_message lower chat_id text w = (Some reply, w) ∧
    callback_query (mkCallbackQuery id data message) w'
    = (Some (),
       with_calls w'
         [ answer_callback_query id label;
           send_message (chat_of_update (message_chat_id message))
             reply (Some "Markdown") ]).
Proof.
  intros Hbutton Htopic.
  rewrite process_message_format, callback_query_calls.
  rewrite !elem_of_cons in Hbutton.
  destruct Hbutton as [Hb | [Hb | []%elem_of_nil]];
    injection Hb as -> -> ->; rewrite Htopic.
  - destruct team_info_text as [reply Hreply]. exists reply.
    simpl. by rewrite Hreply.
  - destruct ecosystem_info_text as [reply Hreply]. exists reply.
    simpl. by rewrite Hreply.
Qed.

End Sending.

(** ** The daily update over time, and runs of the module *)

Section Runs.

Context {V : Type}.
Variable lower : string → string.
Variable ADMIN_CHAT_ID : option string.

Implicit Types (w : World (V:=V)) (now : Z).

(** The one call of the daily update. *)
Lemma daily_update_call now w :
  send_daily_conservation_update ADMIN_CHAT_ID now w
  = (Some (),
     with_calls w
       [ send_message (chat_of_env ADMIN_CHAT_ID)
           (default "" (updates !! Z.to_nat (now `mod` 4))) None ]).
Proof.
  unfold send_daily_conservation_update.
  change (Z.of_nat (length updates)) with 4.
  rewrite py_mod_nonzero by done.
  pose proof (Z.mod_pos_bound now 4 eq_refl) as Hr.
  assert (now `mod` 4 = 0 ∨ now `mod` 4 = 1 ∨
          now `mod` 4 = 2 ∨ now `mod` 4 = 3) as Hcase by lia.
  destruct Hcase as [Hc | [Hc | [Hc | Hc]]]; by rewrite Hc.
Qed.

(** X9: two firings send the same update exactly when their clock readings
    have the same remainder modulo 4; so firings a whole number of days
    (86400 seconds) apart always send the same text, while firings one to
    three seconds apart never do. *)
Theorem daily_update_depends_on_remainder now now' w :
  (send_daily_conservation_update ADMIN_CHAT_ID now w
   = send_daily_conservation_update ADMIN_CHAT_ID now' w
   ↔ now `mod` 4 = now' `mod` 4) ∧
  (∀ days,
     send_daily_conservation_update ADMIN_CHAT_ID (now + 86400 * days) w
     = send_daily_conservation_update ADMIN_CHAT_ID now w) ∧
  (∀ gap, 1 ≤ gap ≤ 3 →
     send_daily_conservation_update ADMIN_CHAT_ID (now + gap) w
     ≠ send_daily_conservation_update ADMIN_CHAT_ID now w).
Proof.
  assert (∀ a b,
            send_daily_conservation_update ADMIN_CHAT_ID a w
            = send_daily_conservation_update ADMIN_CHAT_ID b w
            ↔ a `mod` 4 = b `mod` 4) as Hiff.
  { intros a b. rewrite !daily_update_call. split; [|by intros ->].
    intros Hsame. injection Hsame as Hout. apply app_inv_head in Hout.
    injection Hout as Htext.
    pose proof (Z.mod_pos_bound a 4 eq_refl) as Ha.
    pose proof (Z.mod_pos_bound b 4 eq_refl) as Hb.
    assert (∀ i j, (i < 4)%nat → (j < 4)%nat →
              default "" (updates !! i) = default "" (updates !! j) → i = j)
      as Hdistinct.
    { intros i j Hi Hj.
      do 4 (try destruct i as [|i]); do 4 (try destruct j as [|j]);
        try lia; try reflexivity; intros Heq; by vm_compute in Heq. }
    apply Hdistinct in Htext; lia. }
  split; [apply Hiff|]. split.
  - intros days. apply Hiff.
    replace (now + 86400 * days) with (now + (21600 * days) * 4) by lia.
    by rewrite Z.mod_add.
  - intros gap Hgap Hsame%Hiff.
    rewrite Zplus_mod in Hsame.
    pose proof (Z.mod_pos_bound now 4 eq_refl) as Hr.
    rewrite (Z.mod_small gap 4) in Hsame by lia.
    assert (now `mod` 4 + gap < 4 ∨ 4 ≤ now `mod` 4 + gap < 8) as [?|?]
      by lia.
    + rewrite Z.mod_small in Hsame by lia. lia.
    + replace (now `mod` 4 + gap) with ((now `mod` 4 + gap - 4) + 1 * 4)
        in Hsame by lia.
      rewrite Z.mod_add, Z.mod_small in Hsame by lia. lia.
Qed.

(** What an invocation does to the world: the calls it makes are fixed by
    its argument. *)
Lemma invoke_with_calls (i : invocation) :
  ∃ calls,
    (length calls ≤ 2)%nat ∧
    ∀ w, invoke lower ADMIN_CHAT_ID i w = (Some (), with_calls w calls).
Proof.
  destruct i as [message | message | c | now]; simpl.
  - eexists. split; [|reflexivity]. simpl; lia.
  - destruct (format_is_Some (classify lower (message_text message)))
      as (reply & Hreply & _).
    exists [reply_to message reply (Some "Markdown") None].
    split; [simpl; lia|]. intros w.
    unfold handle_message, mbind, M_bind.
    by rewrite process_message_format, Hreply.
  - eexists. split; [|intros w; apply callback_query_calls].
    cbv zeta. repeat case_decide; simpl; lia.
  - eexists. split; [|intros w; apply daily_update_call]. simpl; lia.
Qed.

Lemma run_app (trace trace' : list invocation) w :
  run lower ADMIN_CHAT_ID (trace ++ trace') w
  = run lower ADMIN_CHAT_ID trace' (run lower ADMIN_CHAT_ID trace w).
Proof. revert w. induction trace as [|i trace IH]; intros w; [done|]. apply IH. Qed.


(** X14: the module keeps no memory between invocations: the calls an
    invocation adds to the outbox are the same after any two histories, from
    any two worlds; for a text message they are the one reply with the text
    of its topic. *)
Theorem invocations_ignore_history (i : invocation) :
  ∃ calls,
    (∀ trace w,
       outbox (run lower ADMIN_CHAT_ID (trace ++ [i]) w)
       = outbox (run lower ADMIN_CHAT_ID trace w) ++ calls) ∧
    (∀ message, i = on_text message →
       ∃ reply,
         format (classify lower (message_text message)) = Some reply ∧
         calls = [reply_to message reply (Some "Markdown") None]).
Proof.
  destruct (invoke_with_calls i) as (calls & _ & Hcalls).
  exists calls. split.
  - intros trace w. rewrite run_app. simpl. by rewrite Hcalls.
  - intros message ->.
    destruct (format_is_Some (classify lower (message_text message)))
      as (reply & Hreply & _).
    exists reply. split; [done|].
    specialize (Hcalls initial_world). simpl in Hcalls.
    unfold handle_message, mbind, M_bind in Hcalls.
    rewrite process_message_format, Hreply in Hcalls.
    injection Hcalls as Hout. simpl in Hout. by rewrite <- Hout.
Qed.


End Runs.

(** ** The listing loops on any table *)

Section Listings.
Import Str StrFacts.

Implicit Types (body : dict → option string) (table : list dict).

(** The loop raises as soon as its body does on some entry. *)
Lemma accumulate_None body table :
  Exists (λ entry, body entry = None) table →
  ∀ acc, accumulate body acc table = None.
Proof.
  induction table as [|entry table IH]; intros Hraise acc.
  - by apply Exists_nil in Hraise.
  - simpl. destruct (body entry) as [piece|] eqn:Hpiece; [|done].
    simpl. apply IH. apply Exists_cons in Hraise as [Hhere|Hlater]; [|done].
    congruence.
Qed.

(** X11: on any table and from any starting text, a listing loop returns
    the starting text followed by the pieces of the entries in table order,
    and raises when the piece of some entry cannot be built. *)
Theorem accumulate_closed_form body acc table :
  accumulate body acc table
  = (pieces ← mapM body table; Some (acc +:+ cat pieces)).
Proof.
  destruct (mapM body table) as [pieces|] eqn:Hpieces; simpl.
  - apply mapM_Some in Hpieces. by apply accumulate_pieces.
  - apply mapM_None in Hpieces. by apply accumulate_None.
Qed.

(** X12: on any table, each listing raises exactly when some entry lacks
    one of the fields its block is built from: [name], [role] or
    [description] for the team, [title] or [description] for the
    ecosystems, [question] or [answer] for the FAQ. *)
Theorem listing_raises_iff_field_missing acc table :
  (accumulate team_entry acc table = None ↔
   ∃ member, member ∈ table ∧
     (member !! "name" = None ∨ member !! "role" = None ∨
      member !! "description" = None)) ∧
  (accumulate ecosystem_entry acc table = None ↔
   ∃ ecosystem, ecosystem ∈ table ∧
     (ecosystem !! "title" = None ∨ ecosystem !! "description" = None)) ∧
  (accumulate faq_entry acc table = None ↔
   ∃ faq, faq ∈ table ∧
     (faq !! "question" = None ∨ faq !! "answer" = None)).
Proof.
  assert (∀ body,
            accumulate body acc table = None
            ↔ ∃ entry, entry ∈ table ∧ body entry = None) as Hloop.
  { intros body. rewrite <- Exists_exists. split.
    - intros Hnone. apply mapM_None.
      destruct (mapM body table) as [pieces|] eqn:Hpieces; [|done].
      apply mapM_Some in Hpieces.
      by rewrite (accumulate_pieces _ _ _ Hpieces) in Hnone.
    - intros Hraise. by apply accumulate_None. }
  rewrite !Hloop. repeat split.
  all: intros (entry & Hin & Hentry); exists entry; (split; [done|]).
  all: revert Hentry.
  all: unfold team_entry, ecosystem_entry, faq_entry.
  all: repeat match goal with
         | |- context [?e !! ?key] => destruct (e !! key)
         end; simpl; intuition congruence.
Qed.

(** X13: the lines of the ecosystem reply and of the FAQ reply: the header
    line and an empty line, then per entry, in table order, [*title*], the
    description and an empty line, respectively [*Q: question*],
    [A: answer] and an empty line; both replies end with a line feed. *)
Theorem ecosystem_and_faq_reply_lines :
  ∃ ecosystems faqs,
    format Ecosystems = Some ecosystems ∧
    format FAQ = Some faqs ∧
    lines ecosystems =
      ["🌱 Our Conservation Ecosystems:"; ""] ++
      flat_map (λ ecosystem : dict,
                  [ "*" +:+ ecosystem !!! "title" +:+ "*";
                    ecosystem !!! "description";
                    "" ])
               ECOSYSTEMS ++
      [""] ∧
    lines faqs =
      ["❓ Frequently Asked Questions:"; ""] ++
      flat_map (λ faq : dict,
                  [ "*Q: " +:+ faq !!! "question" +:+ "*";
                    "A: " +:+ faq !!! "answer";
                    "" ])
               FAQS ++
      [""].
Proof. eexists _, _. repeat split; by vm_compute. Qed.

End Listings.

(** ** Markup and commands *)

Section Markup.
Import Str StrFacts.

Lemma count_char_app c (a b : string) :
  count_char c (a +:+ b) = (count_char c a + count_char c b)%nat.
Proof.
  induction a as [|x a IH]; [done|].
  rewrite str_app_cons. simpl. rewrite IH. lia.
Qed.

(** The loop adds up what the pieces hold. *)
Lemma accumulate_count c (body : dict → option string) (good : dict → Prop) n :
  (∀ entry piece, good entry → body entry = Some piece →
     count_char c piece = n) →
  ∀ table acc reply,
    Forall good table →
    accumulate body acc table = Some reply →
    count_char c reply = (count_char c acc + n * length table)%nat.
Proof.
  intros Hpiece table.
  induction table as [|entry table IH]; intros acc reply Hgood Hreply.
  - simpl in *. injection Hreply as <-. lia.
  - apply Forall_cons in Hgood as [Hentry Hgood]. simpl in Hreply.
    destruct (body entry) as [piece|] eqn:Hbody; [|done]. simpl in Hreply.
    rewrite (IH _ _ Hgood Hreply), count_char_app, (Hpiece _ _ Hentry Hbody).
    simpl length. lia.
Qed.

(** X16: on any table whose field values hold no asterisk, and from any
    starting text, each of the three listings holds exactly two asterisks
    per entry more than the starting text: one emphasised span per entry. *)
Theorem listings_add_two_asterisks_per_entry acc table reply :
  let star := Ascii.ascii_of_nat 42 in
  Forall (map_Forall (λ (_ : string) value, count_char star value = 0%nat))
         table →
  (accumulate team_entry acc table = Some reply ∨
   accumulate ecosystem_entry acc table = Some reply ∨
   accumulate faq_entry acc table = Some reply) →
  count_char star reply = (count_char star acc + 2 * length table)%nat.
Proof.
  intros star Hplain Hreply.
  destruct Hreply as [Hreply | [Hreply | Hreply]];
    (eapply accumulate_count; [|exact Hplain|exact Hreply]);
    intros entry piece Hentry; unfold team_entry, ecosystem_entry, faq_entry;
    repeat match goal with
      | |- context [entry !! ?key] =>
          let Hkey := fresh "Hkey" in
          destruct (entry !! key) as [?|] eqn:Hkey;
          [apply Hentry in Hkey|]
      end; try done; simpl;
    intros [= <-]; rewrite !count_char_app;
    repeat match goal with
      | H : count_char star _ = 0%nat |- _ => rewrite H; clear H
      end; reflexivity.
Qed.

End Markup.

Section Commands.

Context (lower : string → string).

(** X17: the four commands the welcome text advertises are answered under
    their topics when sent as text, through the keyword each contains
    (given that lower-casing leaves them as they are). *)
Theorem advertised_commands_are_answered command topic :
  (command, topic) ∈ [ ("/mission", Mission); ("/team", Team);
                       ("/ecosystems", Ecosystems); ("/faq", FAQ) ] →
  lower command = command →
  Str.occurs_in command welcome_text ∧ classify lower command = topic.
Proof.
  intros Hcommand Hlower. rewrite classify_unfold, Hlower.
  rewrite <- StrFacts.contains_spec.
  rewrite !elem_of_cons in Hcommand.
  destruct Hcommand as [Hc | [Hc | [Hc | [Hc | []%elem_of_nil]]]];
    injection Hc as -> ->; by vm_compute.
Qed.

End Commands.

(** ** Further scenarios *)


(** The team button next to a typed question about the team. *)
Lemma listing_buttons_match_free_text_scenario :
  let lower := Str.lower_ascii in
  let w := initial_world (V:=()) in
  let pressed := mkMessage 7 "/start" in
  ((Team, "team", "Our Team")
   ∈ [ (Team, "team", "Our Team");
       (Ecosystems, "ecosystems", "Conservation Ecosystems") ]) ∧
  classify lower "Tell me about the team" = Team ∧
  ∃ reply,
    process_message lower 7 "Tell me about the team" w = (Some reply, w) ∧
    callback_query (mkCallbackQuery "4242" "team" pressed) w
    = (Some (),
       with_calls w
         [ answer_callback_query "4242" "Our Team";
           send_message (chat_of_update 7) reply (Some "Markdown") ]).
Proof.
  intros lower w pressed.
  split; [apply list_elem_of_here|]. split; [reflexivity|].
  exact (listing_buttons_match_free_text lower Team "team" "Our Team" 7
           "Tell me about the team" "4242" pressed w w
           (list_elem_of_here _ _) eq_refl).
Defined.

(** The team table as it is: eight asterisks for four members. *)
Lemma listings_add_two_asterisks_per_entry_scenario :
  let star := Ascii.ascii_of_nat 42 in
  Forall (map_Forall (λ (_ : string) value, count_char star value = 0%nat))
         TEAM_MEMBERS ∧
  ∃ reply,
    accumulate team_entry TEAM_HEADER TEAM_MEMBERS = Some reply ∧
    count_char star reply = 8%nat.
Proof.
  intros star.
  assert (Forall (map_Forall
                    (λ (_ : string) value, count_char star value = 0%nat))
                 TEAM_MEMBERS) as Hplain.
  { match goal with |- ?P => apply (bool_decide_unpack P) end. by vm_compute. }
  split; [exact Hplain|].
  destruct team_info_text as [reply Hreply].
  exists reply. split; [exact Hreply|].
  exact (listings_add_two_asterisks_per_entry TEAM_HEADER TEAM_MEMBERS reply
           Hplain (or_introl Hreply)).
Defined.

(** The last of the advertised commands. *)
Lemma advertised_commands_are_answered_scenario :
  let lower := Str.lower_ascii in
  (("/faq", FAQ) ∈ [ ("/mission", Mission); ("/team", Team);
                     ("/ecosystems", Ecosystems); ("/faq", FAQ) ]) ∧
  lower "/faq" = "/faq" ∧
  Str.occurs_in "/faq" welcome_text ∧
  classify lower "/faq" = FAQ.
Proof.
  intros lower.
  assert (("/faq", FAQ) ∈ [ ("/mission", Mission); ("/team", Team);
                            ("/ecosystems", Ecosystems); ("/faq", FAQ) ])
    as Hcommand.
  { do 3 apply list_elem_of_further. apply list_elem_of_here. }
  split; [exact Hcommand|]. split; [reflexivity|].
  exact (advertised_commands_are_answered lower "/faq" FAQ Hcommand eq_refl).
Defined.
